(** * Stack traces of the go-errors package (stack.go)

    A shallow embedding of [stack.go]: frames and their lazy resolution
    against the runtime's function table, the [fmt.Formatter] methods of
    [Frame] and [StackTrace], the capture of program counters by [callers],
    the name normalisation [funcname], and the matcher [ancestorOfCause]
    that decides whether a freshly captured stack looks like an ancestor of
    a stack already attached to the cause of an error.

    Conventions.
    - [uintptr] and [int] are 64-bit; both are carried by [Z], and the
      arithmetic the code does on them is wrapped explicitly.
    - A Go [string] is a sequence of bytes, which is what [string] is here;
      [[]byte(s)] is therefore the identity.
    - Indexing and slicing are bounds checked in Go.  Where the code indexes
      a slice, the model returns an [outcome], whose [Panic] stands for the
      run-time panic; the theorems show that it never occurs.
    - A loop is a recursion on [fuel]; running out of it is the separate
      outcome [OutOfFuel], and the theorems show that the fuel given is
      enough. *)

From Stdlib Require Import ZArith List Bool Lia Ascii String.
From Stdlib Require Import Numbers.DecimalString.
Import ListNotations.

Local Open Scope list_scope.
Local Open Scope string_scope.
Local Open Scope Z_scope.

(** ** Machine integers *)

Module Int.

Definition uintptr := Z.
Definition int := Z.

Definition uintptr_modulus : Z := 2 ^ 64.
Definition max_int : Z := 2 ^ 63 - 1.
Definition min_int : Z := - 2 ^ 63.

(** Unsigned 64-bit wrap-around. *)
Definition wrap_uintptr (x : Z) : uintptr := x mod uintptr_modulus.

(** Signed 64-bit (two's complement) wrap-around. *)
Definition wrap_int (x : Z) : int :=
  (x + 2 ^ 63) mod 2 ^ 64 - 2 ^ 63.

Definition is_int (x : Z) : Prop := min_int <= x <= max_int.
Definition is_uintptr (x : Z) : Prop := 0 <= x < uintptr_modulus.

End Int.
Export Int.

(** ** Results of code that may panic *)

Inductive outcome (A : Type) : Type :=
| Ret (a : A)
| Panic
| OutOfFuel.
Arguments Ret {A} a.
Arguments Panic {A}.
Arguments OutOfFuel {A}.

Definition bind {A B : Type} (m : outcome A) (k : A -> outcome B) : outcome B :=
  match m with
  | Ret a => k a
  | Panic => Panic
  | OutOfFuel => OutOfFuel
  end.

Notation "x <- m ;; k" := (bind m (fun x => k))
  (at level 61, m at next level, right associativity).

(** [index l i] is the Go expression [l[i]]: a panic outside [0 <= i < len(l)]. *)
Definition index {A : Type} (l : list A) (i : int) : outcome A :=
  if (i <? 0) || (Z.of_nat (List.length l) <=? i) then Panic
  else match nth_error l (Z.to_nat i) with
       | Some a => Ret a
       | None => Panic
       end.

(** [slice l lo hi] is the Go expression [l[lo:hi]] on an array or slice of
    capacity [len(l)]: a panic unless [0 <= lo <= hi <= len(l)]. *)
Definition slice {A : Type} (l : list A) (lo hi : int) : outcome (list A) :=
  if (lo <? 0) || (hi <? lo) || (Z.of_nat (List.length l) <? hi) then Panic
  else Ret (firstn (Z.to_nat (hi - lo)) (skipn (Z.to_nat lo) l)).

Definition len {A : Type} (l : list A) : int := Z.of_nat (List.length l).

(** ** Stacks and the ancestor matcher *)

(** [type Frame uintptr]: the program counter plus one. *)
Definition Frame := uintptr.

(** [type StackTrace []Frame], innermost frame first. *)
Definition StackTrace := list Frame.

(** [type stack []uintptr]. *)
Definition stack := list uintptr.

(** The loop of [StackTrace()]:
    [for i := i; i < len(f); i++ { f[i] = Frame(s[i]) }], where [s] is the
    stack behind the pointer. *)
Fixpoint StackTrace_fill (s : stack) (f : list Frame) (i : int) (fuel : nat)
  : outcome (list Frame) :=
  match fuel with
  | O => OutOfFuel
  | S fuel' =>
      if i <? len f then
        pc <- index s i ;;
        _ <- index f i ;;
        let f := (firstn (Z.to_nat i) f ++ pc :: skipn (S (Z.to_nat i)) f)%list in
        StackTrace_fill s f (i + 1) fuel'
      else Ret f
  end.

(** [func (s *stack) StackTrace() StackTrace]: a fresh slice of the same
    length, made by [make], filled index by index with the
    converted program counters. *)
Definition stack_StackTrace (s : stack) : outcome StackTrace :=
  let f := repeat 0 (List.length s) in
  StackTrace_fill s f 0 (S (List.length f)).

(** The body of the loop of [ancestorOfCause].  The loop variable [idx] is
    not used by the body: every iteration compares the last element of
    [ourStack] with the last element of [causeStack].  The result is
    [Some b] when the body returns [b] and [None] when it falls through. *)
Definition ancestor_body (ourStack : stack) (causeStack : StackTrace) (idx : int)
  : outcome (option bool) :=
  ours <- index ourStack (len ourStack - 1) ;;
  theirs <- index causeStack (len causeStack - 1) ;;
  if negb (ours =? theirs) then Ret (Some false) else Ret None.

(** [for idx := idx; idx < len(ourStack); idx++ { body }], followed by the
    [return true] after the loop. *)
Fixpoint ancestor_loop (ourStack : stack) (causeStack : StackTrace)
    (idx : int) (fuel : nat) : outcome bool :=
  match fuel with
  | O => OutOfFuel
  | S fuel' =>
      if idx <? len ourStack then
        r <- ancestor_body ourStack causeStack idx ;;
        match r with
        | Some b => Ret b
        | None => ancestor_loop ourStack causeStack (idx + 1) fuel'
        end
      else Ret true
  end.

(** [func ancestorOfCause(ourStack *stack, causeStack StackTrace) bool].
    [ourStack] is the stack the pointer refers to; the pointer comes from
    [callers], which never returns nil. *)
Definition ancestorOfCause (ourStack : stack) (causeStack : StackTrace)
  : outcome bool :=
  if len causeStack <? len ourStack then Ret false
  else ancestor_loop ourStack causeStack 0 (S (List.length ourStack)).

(** The comparison the comment of [ancestorOfCause] describes, anchored at
    the tails: position [k] from the end of [candidate] against position
    [k] from the end of [cause], for every [k < len(candidate)]. *)
Definition tail_position_eqb (candidate cause : list uintptr) (k : nat) : bool :=
  match nth_error candidate (List.length candidate - 1 - k),
        nth_error cause (List.length cause - 1 - k) with
  | Some x, Some y => x =? y
  | _, _ => false
  end.

Definition tail_aligned (candidate cause : list uintptr) : bool :=
  forallb (tail_position_eqb candidate cause) (seq 0 (List.length candidate)).

(** The check the code performs, as a function of the two lengths and of
    the two outermost addresses, compared as raw [uintptr] values. *)
Definition last_check (n m : int) (ours theirs : uintptr) : bool :=
  (n <=? m) && ((n =? 0) || (ours =? theirs)).

(** ** Strings *)

Definition rune := Z.

Definition rune_of (c : ascii) : rune := Z.of_N (N_of_ascii c).

Definition newline : string := String (ascii_of_nat 10) "".
Definition tab : string := String (ascii_of_nat 9) "".

Fixpoint string_drop (n : nat) (s : string) : string :=
  match n, s with
  | O, _ => s
  | S n', String _ s' => string_drop n' s'
  | S _, EmptyString => EmptyString
  end.

(** [len(s)] of a string: its number of bytes. *)
Definition slen (s : string) : int := Z.of_nat (String.length s).

(** [occurs c s]: the byte [c] occurs in [s]. *)
Fixpoint occurs (c : ascii) (s : string) : bool :=
  match s with
  | EmptyString => false
  | String a s' => Ascii.eqb a c || occurs c s'
  end.

(** [s[lo:]].  Go panics unless [0 <= lo <= len(s)]; the uses below stay in
    that range (see [Index_range] and [LastIndex_range]). *)
Definition slice_from (s : string) (lo : int) : string :=
  string_drop (Z.to_nat lo) s.

(** [strings.Index(s, substr)] of the Go standard library: the index of the
    first instance of [substr] in [s], or [-1]. *)
Fixpoint Index (s substr : string) : int :=
  if String.prefix substr s then 0
  else match s with
       | EmptyString => -1
       | String _ s' =>
           let i := Index s' substr in
           if i <? 0 then -1 else i + 1
       end.

(** [strings.LastIndex(s, substr)] of the Go standard library: the index of
    the last instance of [substr] in [s], or [-1]. *)
Fixpoint LastIndex (s substr : string) : int :=
  match s with
  | EmptyString => if String.prefix substr s then 0 else -1
  | String _ s' =>
      let i := LastIndex s' substr in
      if 0 <=? i then i + 1
      else if String.prefix substr s then 0 else -1
  end.

(** [func funcname(name string) string]. *)
Definition funcname (name : string) : string :=
  let i := LastIndex name "/" in
  let name := slice_from name (i + 1) in
  let i := Index name "." in
  slice_from name (i + 1).

(** [strconv.Itoa] of the Go standard library: the decimal representation,
    with a leading [-] for a negative number. *)
Definition Itoa (i : int) : string :=
  NilZero.string_of_int (Z.to_int i).

(** The loop of [path.Base] that removes trailing slashes:
    [for len(path) > 0 && path[len(path)-1] == '/' { path = path[0 : len(path)-1] }]. *)
Fixpoint strip_trailing_slashes (path : string) : string :=
  match path with
  | EmptyString => EmptyString
  | String c rest =>
      match strip_trailing_slashes rest with
      | EmptyString => if Ascii.eqb c "/" then EmptyString else String c EmptyString
      | stripped => String c stripped
      end
  end.

(** [path.Base] of the Go standard library: the last element of the path,
    after removing trailing slashes; ["."] for the empty path and ["/"] for
    a path of slashes only. *)
Definition path_Base (path : string) : string :=
  if String.eqb path "" then "."
  else
    let path := strip_trailing_slashes path in
    let i := LastIndex path "/" in
    let path := if 0 <=? i then slice_from path (i + 1) else path in
    if String.eqb path "" then "/" else path.

(** Strings joined with a separator. *)
Fixpoint join (sep : string) (parts : list string) : string :=
  match parts with
  | [] => ""
  | [x] => x
  | x :: rest => x ++ sep ++ join sep rest
  end.

(** ** The printer state handed to a formatter *)

(** [fmt.State]: what has been written so far and the flags of the verb
    being printed. *)
Record State : Type := mkState {
  written : string;
  flags : rune -> bool
}.

(** [io.WriteString(s, x)]; the code drops its results. *)
Definition WriteString (s : State) (x : string) : State :=
  mkState (written s ++ x) (flags s).

(** [s.Flag(c)]. *)
Definition Flag (s : State) (c : rune) : bool := flags s c.

Definition no_flags : rune -> bool := fun _ => false.
Definition plus_flag : rune -> bool := fun c => c =? rune_of "+".

(** ** The host: function table and printer *)

(** [*runtime.Func]: a function of the running image. *)
Record Func : Type := mkFunc {
  Func_Name : string;
  Func_FileLine : uintptr -> string * int
}.

(** What the code takes from its host and this file leaves open:
    [runtime.FuncForPC], which is [None] where Go returns nil, and the
    Go-syntax printing [fmt.Fprintf(s, "%#v", frames)]. *)
Class Host : Type := mkHost {
  FuncForPC : uintptr -> option Func;
  Fprintf_gosyntax : State -> list Frame -> State
}.

(** ** Frames *)

Section Frames.

Context {host : Host}.

(** [func (f Frame) pc() uintptr { return uintptr(f) - 1 }]. *)
Definition Frame_pc (f : Frame) : uintptr := wrap_uintptr (f - 1).

(** [func (f Frame) file() string]. *)
Definition Frame_file (f : Frame) : string :=
  match FuncForPC (Frame_pc f) with
  | None => "unknown"
  | Some fn => fst (Func_FileLine fn (Frame_pc f))
  end.

(** [func (f Frame) line() int]. *)
Definition Frame_line (f : Frame) : int :=
  match FuncForPC (Frame_pc f) with
  | None => 0
  | Some fn => snd (Func_FileLine fn (Frame_pc f))
  end.

(** [func (f Frame) name() string]. *)
Definition Frame_name (f : Frame) : string :=
  match FuncForPC (Frame_pc f) with
  | None => "unknown"
  | Some fn => Func_Name fn
  end.

(** [func (f Frame) Format(s fmt.State, verb rune)].  The case ['v'] calls
    [Format] again, with the verbs ['s'] and ['d'], which do not recurse;
    [fuel] bounds that nesting and two levels are enough
    (see [Frame_Format_fuel_enough]). *)
Fixpoint Frame_Format_fuel (fuel : nat) (f : Frame) (s : State) (verb : rune)
  : State :=
  match fuel with
  | O => s
  | S fuel' =>
      if verb =? rune_of "s" then
        if Flag s (rune_of "+") then
          let s := WriteString s (Frame_name f) in
          let s := WriteString s (newline ++ tab) in
          WriteString s (Frame_file f)
        else
          WriteString s (path_Base (Frame_file f))
      else if verb =? rune_of "d" then
        WriteString s (Itoa (Frame_line f))
      else if verb =? rune_of "n" then
        WriteString s (funcname (Frame_name f))
      else if verb =? rune_of "v" then
        let s := Frame_Format_fuel fuel' f s (rune_of "s") in
        let s := WriteString s ":" in
        Frame_Format_fuel fuel' f s (rune_of "d")
      else s
  end.

Definition Frame_Format (f : Frame) (s : State) (verb : rune) : State :=
  Frame_Format_fuel 2 f s verb.

(** [error]: [None] is nil. *)
Definition error := option string.

(** [func (f Frame) MarshalText() ([]byte, error)]; the format
    ["%s %s:%d"] is written out. *)
Definition Frame_MarshalText (f : Frame) : string * error :=
  let name := Frame_name f in
  if String.eqb name "unknown" then (name, None)
  else (name ++ " " ++ Frame_file f ++ ":" ++ Itoa (Frame_line f), None).

(** ** Stack traces *)

(** The loop of [formatSlice]: [for i, f := range st], from index [i] on. *)
Fixpoint formatSlice_loop (i : int) (st : list Frame) (s : State) (verb : rune)
  : State :=
  match st with
  | [] => s
  | f :: rest =>
      let s := if 0 <? i then WriteString s " " else s in
      let s := Frame_Format f s verb in
      formatSlice_loop (i + 1) rest s verb
  end.

(** [func (st StackTrace) formatSlice(s fmt.State, verb rune)]. *)
Definition StackTrace_formatSlice (st : StackTrace) (s : State) (verb : rune)
  : State :=
  let s := WriteString s "[" in
  let s := formatSlice_loop 0 st s verb in
  WriteString s "]".

(** The loop of the [%+v] case of [StackTrace.Format]. *)
Fixpoint format_plus_loop (st : list Frame) (s : State) (verb : rune) : State :=
  match st with
  | [] => s
  | f :: rest =>
      let s := WriteString s newline in
      let s := Frame_Format f s verb in
      format_plus_loop rest s verb
  end.

(** [func (st StackTrace) Format(s fmt.State, verb rune)]. *)
Definition StackTrace_Format (st : StackTrace) (s : State) (verb : rune) : State :=
  if verb =? rune_of "v" then
    if Flag s (rune_of "+") then format_plus_loop st s verb
    else if Flag s (rune_of "#") then Fprintf_gosyntax s st
    else StackTrace_formatSlice st s verb
  else if verb =? rune_of "s" then StackTrace_formatSlice st s verb
  else s.

(** [fmt.Fprintf(st, "\n%+v", f)] for a [Frame]: the newline, then the
    frame's own [Format] with the verb ['v'] and the flag [+], writing to
    [st]; the flags of [st] are those of the enclosing verb and stay. *)
Definition Fprintf_nl_plus_v (st : State) (f : Frame) : State :=
  let inner := mkState (written st ++ newline) plus_flag in
  mkState (written (Frame_Format f inner (rune_of "v"))) (flags st).

(** [func (s *stack) Format(st fmt.State, verb rune)]. *)
Definition stack_Format (s : stack) (st : State) (verb : rune) : State :=
  if verb =? rune_of "v" then
    if Flag st (rune_of "+") then
      fold_left (fun st pc => Fprintf_nl_plus_v st pc) s st
    else st
  else st.

(** What [fmt.Sprintf] returns for one operand that implements
    [fmt.Formatter]: the text its [Format] writes to a fresh printer that
    carries the flags of the verb. *)
Definition Sprint_Frame (fl : rune -> bool) (verb : rune) (f : Frame) : string :=
  written (Frame_Format f (mkState "" fl) verb).

Definition Sprint_StackTrace (fl : rune -> bool) (verb : rune) (st : StackTrace)
  : string :=
  written (StackTrace_Format st (mkState "" fl) verb).

(** The text modes of the formatter. *)
Definition Compact_Frame (f : Frame) : string := Sprint_Frame no_flags (rune_of "v") f.
Definition Verbose_Frame (f : Frame) : string := Sprint_Frame plus_flag (rune_of "v") f.
Definition NameOnly_Frame (f : Frame) : string := Sprint_Frame no_flags (rune_of "n") f.
Definition Compact_StackTrace (st : StackTrace) : string :=
  Sprint_StackTrace no_flags (rune_of "v") st.
Definition Verbose_StackTrace (st : StackTrace) : string :=
  Sprint_StackTrace plus_flag (rune_of "v") st.

End Frames.

(** ** Capture *)

(** Modelled from the spec: [runtime.Callers(skip, pc)] belongs to the Go
    runtime and is not part of the package.  [chain] is the active call
    chain of the calling goroutine, innermost first, with entry [0] the
    frame of [Callers] itself and entry [1] its caller.  The call records
    the chain from entry [skip] on into [pc], as many entries as [pc]
    holds, and returns how many it wrote.  A negative [skip] is outside
    the contract; it is taken as [0] here. *)
Definition runtime_Callers (chain : list uintptr) (skip : int) (pc : list uintptr)
  : int * list uintptr :=
  let recorded := firstn (List.length pc) (skipn (Z.to_nat skip) chain) in
  (len recorded, (recorded ++ skipn (List.length recorded) pc)%list).

Definition depth : int := 32.

(** [func callers(skip int) *stack], run when the call chain is [chain]
    (which already holds the frames of [callers] and [runtime.Callers]). *)
Definition callers (chain : list uintptr) (skip : int) : outcome stack :=
  let pcs := repeat 0 (Z.to_nat depth) in
  let '(n, pcs) := runtime_Callers chain (wrap_int (skip + 3)) pcs in
  st <- slice pcs 0 n ;;
  Ret st.

(** ** The capture as the specification words it *)

(** The stack the capture is worded to return: the baseline of three
    frames and [extraSkip] further frames are skipped, the numbers being
    added as numbers, and the innermost 32 of what remains are kept. *)
Definition capture_worded (chain : list uintptr) (extraSkip : Z) : list uintptr :=
  firstn 32 (skipn (Z.to_nat (3 + extraSkip)) chain).

(** ** The renderings as the specification words them *)

Section Worded.

Context {host : Host}.

(** Compact frame: ["<basename-of-file>:<line>"]. *)
Definition compact_text (f : Frame) : string :=
  path_Base (Frame_file f) ++ ":" ++ Itoa (Frame_line f).

(** Machine frame: ["<function> <file>:<line>"] when the address resolves
    to a function, the literal ["unknown"] when it does not. *)
Definition machine_text_worded (f : Frame) : string :=
  match FuncForPC (Frame_pc f) with
  | Some fn =>
      Func_Name fn ++ " " ++ fst (Func_FileLine fn (Frame_pc f)) ++ ":"
        ++ Itoa (snd (Func_FileLine fn (Frame_pc f)))
  | None => "unknown"
  end.

(** Verbose frame with the name as the function table reports it:
    ["<function name>\n\t<full file path>:<line>"]. *)
Definition verbose_text (f : Frame) : string :=
  Frame_name f ++ newline ++ tab ++ Frame_file f ++ ":" ++ Itoa (Frame_line f).

(** Verbose frame as worded, with the normalised name:
    ["<normalized function name>\n\t<full file path>:<line>"]. *)
Definition verbose_text_worded (f : Frame) : string :=
  funcname (Frame_name f) ++ newline ++ tab ++ Frame_file f ++ ":"
    ++ Itoa (Frame_line f).

(** A trace in which every frame is preceded by a newline. *)
Definition newline_each (text : Frame -> string) (st : StackTrace) : string :=
  String.concat "" (map (fun f => newline ++ text f) st).

End Worded.

(** ** Hosts to run the code on *)

(** The printer of [%#v] in the hosts below; nothing in this file reads
    what it writes. *)
Definition no_gosyntax (s : State) (_ : list Frame) : State := s.

(** A function table with two functions, at the program counters 10 and
    20 (frames 11 and 21). *)
Definition example_table (pc : uintptr) : option Func :=
  if pc =? 10 then Some (mkFunc "a/b/pkg.Type.Method" (fun _ => ("/src/a.go", 1)))
  else if pc =? 20 then Some (mkFunc "pkg.Func" (fun _ => ("/src/x/b.go", 2)))
  else None.

Definition example_host : Host := mkHost example_table no_gosyntax.

(** A function table with a function whose name is the very word the
    resolver uses for an unresolved frame (an assembly routine declared
    without a package qualifier has such a bare name), at the program
    counter 10. *)
Definition bare_name_table (pc : uintptr) : option Func :=
  if pc =? 10 then Some (mkFunc "unknown" (fun _ => ("/src/u.s", 7)))
  else None.

Definition bare_name_host : Host := mkHost bare_name_table no_gosyntax.

(** * Properties *)

(** ** Indexing *)

Lemma len_nonneg {A : Type} (l : list A) : 0 <= len l.
Proof. unfold len. lia. Qed.

Lemma len_cons {A : Type} (a : A) (l : list A) : len (a :: l) = len l + 1.
Proof. unfold len. simpl List.length. lia. Qed.

Lemma nth_error_last {A : Type} (l : list A) (d : A) :
  l <> [] -> nth_error l (List.length l - 1) = Some (last l d).
Proof.
  intros Hne.
  rewrite (app_removelast_last d Hne) at 1 2.
  rewrite length_app. simpl List.length.
  rewrite nth_error_app2 by lia.
  replace (List.length (removelast l) + 1 - 1 - List.length (removelast l))%nat
    with O by lia.
  reflexivity.
Qed.

(** The last element of a non-empty slice is in range. *)
Lemma index_last {A : Type} (l : list A) (d : A) :
  l <> [] -> index l (len l - 1) = Ret (last l d).
Proof.
  intros Hne.
  assert (Hlen : (0 < List.length l)%nat)
    by (destruct l; [contradiction | simpl; lia]).
  unfold index, len.
  replace (Z.of_nat (List.length l) - 1 <? 0) with false
    by (symmetry; apply Z.ltb_ge; lia).
  replace (Z.of_nat (List.length l) <=? Z.of_nat (List.length l) - 1) with false
    by (symmetry; apply Z.leb_gt; lia).
  simpl orb.
  replace (Z.to_nat (Z.of_nat (List.length l) - 1)) with (List.length l - 1)%nat by lia.
  rewrite (nth_error_last l d Hne). reflexivity.
Qed.

Lemma index_nth_error {A : Type} (l : list A) (i : nat) (a : A) :
  nth_error l i = Some a -> index l (Z.of_nat i) = Ret a.
Proof.
  intros Hnth.
  assert (Hlt : (i < List.length l)%nat) by (apply nth_error_Some; congruence).
  unfold index.
  replace (Z.of_nat i <? 0) with false by (symmetry; apply Z.ltb_ge; lia).
  replace (Z.of_nat (List.length l) <=? Z.of_nat i) with false
    by (symmetry; apply Z.leb_gt; lia).
  cbn [orb]. rewrite Nat2Z.id, Hnth. reflexivity.
Qed.

Lemma firstn_snoc_nth {A : Type} (l : list A) :
  forall (i : nat) (x : A),
    nth_error l i = Some x -> firstn (S i) l = (firstn i l ++ [x])%list.
Proof.
  induction l as [| a l IH]; intros [| i] x Hx; try discriminate.
  - injection Hx as ->. reflexivity.
  - cbn [firstn app]. f_equal. apply IH. exact Hx.
Qed.

(** ** The trace of a stack *)

(** After [i] rounds the first [i] entries are copied and the rest is
    still zero; the loop ends with the whole stack copied, and one unit of
    fuel more than the rounds to go is enough. *)
Lemma StackTrace_fill_copies (s : stack) (todo : nat) :
  forall i : nat,
    (i + todo)%nat = List.length s ->
    StackTrace_fill s (firstn i s ++ repeat 0 todo)%list (Z.of_nat i) (S todo) = Ret s.
Proof.
  induction todo as [| todo IH]; intros i Hsum.
  - cbn [StackTrace_fill repeat]. rewrite app_nil_r.
    replace i with (List.length s) by lia. rewrite firstn_all.
    unfold len. rewrite Z.ltb_irrefl. reflexivity.
  - remember (S todo) as fuel eqn:Hfuel.
    cbn [StackTrace_fill]. unfold stack, StackTrace, Frame in *.
    assert (Hfi : List.length (firstn i s) = i) by (rewrite length_firstn; lia).
    set (f := (firstn i s ++ repeat 0 fuel)%list).
    assert (Hlenf : List.length f = List.length s).
    { subst f. rewrite length_app, Hfi, repeat_length. lia. }
    replace (Z.of_nat i <? len f) with true
      by (symmetry; apply Z.ltb_lt; unfold len; lia).
    destruct (nth_error s i) as [x |] eqn:Hx;
      [| apply nth_error_None in Hx; lia].
    rewrite (index_nth_error s i x Hx). cbn [bind].
    assert (Hf0 : nth_error f i = Some 0).
    { subst f fuel. rewrite nth_error_app2 by lia. rewrite Hfi, Nat.sub_diag. reflexivity. }
    rewrite (index_nth_error f i 0 Hf0). cbn [bind].
    rewrite Nat2Z.id.
    replace (Z.of_nat i + 1) with (Z.of_nat (S i)) by lia.
    assert (Hnext : (firstn i f ++ x :: skipn (S i) f)%list
                    = (firstn (S i) s ++ repeat 0 todo)%list).
    { subst f fuel.
      rewrite (firstn_snoc_nth s i x Hx).
      rewrite firstn_app, Hfi, Nat.sub_diag, firstn_firstn, Nat.min_id.
      rewrite firstn_O, app_nil_r.
      rewrite skipn_app, Hfi.
      replace (S i - i)%nat with 1%nat by lia.
      rewrite skipn_all2 by (rewrite Hfi; lia).
      cbn [repeat skipn app].
      rewrite <- app_assoc. reflexivity. }
    rewrite Hnext. subst fuel. apply IH. lia.
Qed.

(** [StackTrace()] returns the program counters of the stack, one frame
    per entry and in the same order. *)
Lemma stack_StackTrace_same (s : stack) : stack_StackTrace s = Ret s.
Proof.
  unfold stack_StackTrace. rewrite repeat_length.
  apply (StackTrace_fill_copies s (List.length s) 0). reflexivity.
Qed.

(** ** The ancestor matcher *)

Section Ancestor.

Variables (ourStack : stack) (causeStack : StackTrace).

Lemma ancestor_body_last (idx : int) :
  ourStack <> [] -> causeStack <> [] ->
  ancestor_body ourStack causeStack idx =
    Ret (if last ourStack 0 =? last causeStack 0 then None else Some false).
Proof.
  intros Ho Hc. unfold ancestor_body.
  rewrite (index_last ourStack 0 Ho), (index_last causeStack 0 Hc).
  simpl. destruct (last ourStack 0 =? last causeStack 0); reflexivity.
Qed.

(** Every iteration repeats one and the same comparison, so the loop
    returns its result as soon as it runs at all; fuel beyond the number
    of iterations left is enough. *)
Lemma ancestor_loop_last (fuel : nat) :
  ourStack <> [] -> causeStack <> [] ->
  forall idx : int,
    (Z.to_nat (len ourStack - idx) < fuel)%nat ->
    ancestor_loop ourStack causeStack idx fuel =
      Ret (negb (idx <? len ourStack)
           || (last ourStack 0 =? last causeStack 0)).
Proof.
  intros Ho Hc. induction fuel as [| fuel IH]; intros idx Hfuel.
  - lia.
  - cbn [ancestor_loop].
    destruct (idx <? len ourStack) eqn:Hidx; [| reflexivity].
    apply Z.ltb_lt in Hidx.
    rewrite ancestor_body_last by assumption.
    cbn [bind negb orb].
    destruct (last ourStack 0 =? last causeStack 0).
    + rewrite IH by lia. rewrite orb_true_r. reflexivity.
    + reflexivity.
Qed.

End Ancestor.

(** The matcher never panics, and what it returns is [last_check] of the
    two lengths and the two final elements. *)
Lemma ancestorOfCause_total_form (ourStack : stack) (causeStack : StackTrace) :
  ancestorOfCause ourStack causeStack =
    Ret (last_check (len ourStack) (len causeStack)
                    (last ourStack 0) (last causeStack 0)).
Proof.
  unfold ancestorOfCause, last_check.
  destruct (len causeStack <? len ourStack) eqn:Hlen.
  - apply Z.ltb_lt in Hlen.
    replace (len ourStack <=? len causeStack) with false
      by (symmetry; apply Z.leb_gt; exact Hlen).
    reflexivity.
  - apply Z.ltb_ge in Hlen.
    replace (len ourStack <=? len causeStack) with true
      by (symmetry; apply Z.leb_le; exact Hlen).
    destruct ourStack as [| a ours].
    + reflexivity.
    + assert (Ho : a :: ours <> []) by discriminate.
      assert (Hc : causeStack <> []).
      { intros ->. rewrite len_cons in Hlen. pose proof (len_nonneg ours).
        change (len (@nil Frame)) with 0 in Hlen. lia. }
      rewrite (ancestor_loop_last (a :: ours) causeStack _ Ho Hc)
        by (unfold len; lia).
      pose proof (len_nonneg ours) as Hn.
      replace (0 <? len (a :: ours)) with true
        by (symmetry; apply Z.ltb_lt; rewrite len_cons; lia).
      replace (len (a :: ours) =? 0) with false
        by (symmetry; apply Z.eqb_neq; rewrite len_cons; lia).
      reflexivity.
Qed.

(** X5. Two calls whose stacks agree in length and in their final elements
    return the same result, whatever the other elements are. *)
Corollary ancestorOfCause_only_last (o o' : stack) (c c' : StackTrace) :
  List.length o = List.length o' -> List.length c = List.length c' ->
  last o 0 = last o' 0 -> last c 0 = last c' 0 ->
  ancestorOfCause o c = ancestorOfCause o' c'.
Proof.
  intros Ho Hc Hlo Hlc. rewrite !ancestorOfCause_total_form.
  unfold len. rewrite Ho, Hc, Hlo, Hlc. reflexivity.
Qed.

(** C2. For all inputs, [ancestorOfCause(ourStack, causeStack)] returns
    (without a panic) the value of: [len(ourStack) <= len(causeStack)] and
    ([ourStack] is empty or its last element equals, as a raw address, the
    last element of [causeStack]).  The right-hand side is a function of
    the two lengths and the two final elements only, so no other element
    has any influence on the result. *)
Theorem ancestorOfCause_is_last_check (ourStack : stack) (causeStack : StackTrace) :
  ancestorOfCause ourStack causeStack =
    Ret (last_check (len ourStack) (len causeStack)
                    (last ourStack 0) (last causeStack 0))
  /\ last_check (len ourStack) (len causeStack) (last ourStack 0) (last causeStack 0)
     = ((List.length ourStack <=? List.length causeStack)%nat
        && match ourStack with
           | [] => true
           | _ :: _ => last ourStack 0 =? last causeStack 0
           end).
Proof.
  split; [apply ancestorOfCause_total_form |].
  unfold last_check, len.
  destruct (Nat.leb_spec (List.length ourStack) (List.length causeStack)) as [H | H].
  - replace (Z.of_nat (List.length ourStack) <=? Z.of_nat (List.length causeStack))
      with true by (symmetry; apply Z.leb_le; lia).
    destruct ourStack; reflexivity.
  - replace (Z.of_nat (List.length ourStack) <=? Z.of_nat (List.length causeStack))
      with false by (symmetry; apply Z.leb_gt; lia).
    reflexivity.
Qed.

(** C3. A candidate longer than the cause is never an ancestor:
    if [len(candidate) > len(cause)] the matcher returns false, whatever
    the two sequences hold. *)
Theorem ancestorOfCause_longer_false (candidate : stack) (cause : StackTrace) :
  (List.length candidate > List.length cause)%nat ->
  ancestorOfCause candidate cause = Ret false.
Proof.
  intros Hlen. unfold ancestorOfCause, len.
  replace (Z.of_nat (List.length cause) <? Z.of_nat (List.length candidate)) with true
    by (symmetry; apply Z.ltb_lt; lia).
  reflexivity.
Qed.

Lemma ancestorOfCause_longer_false_witness :
  ancestorOfCause [7; 8] [8] = Ret false.
Proof.
  apply (ancestorOfCause_longer_false [7; 8] [8]). simpl. lia.
Defined.

(** C4. An empty candidate matches every cause: the loop makes no
    comparison and the matcher returns true. *)
Theorem ancestorOfCause_empty_candidate (cause : StackTrace) :
  ancestorOfCause [] cause = Ret true.
Proof.
  unfold ancestorOfCause.
  replace (len cause <? len []) with false; [reflexivity |].
  symmetry. apply Z.ltb_ge. apply len_nonneg.
Qed.

(** X4. The tail-anchored comparison implies the check of the code: a
    candidate no longer than the cause that agrees with the cause at every
    tail position is accepted. *)
Lemma tail_aligned_accepted (candidate : stack) (cause : StackTrace) :
  (List.length candidate <= List.length cause)%nat ->
  tail_aligned candidate cause = true ->
  ancestorOfCause candidate cause = Ret true.
Proof.
  intros Hlen Hall. rewrite ancestorOfCause_total_form.
  unfold last_check, len.
  replace (Z.of_nat (List.length candidate) <=? Z.of_nat (List.length cause))
    with true by (symmetry; apply Z.leb_le; lia).
  destruct candidate as [| a rest]; [reflexivity |].
  assert (Ho : a :: rest <> []) by discriminate.
  assert (Hc : cause <> []) by (intros ->; simpl in Hlen; lia).
  unfold tail_aligned in Hall. rewrite forallb_forall in Hall.
  specialize (Hall O).
  assert (Hin : In O (seq 0 (List.length (a :: rest)))) by (apply in_seq; simpl; lia).
  specialize (Hall Hin). unfold tail_position_eqb in Hall.
  rewrite !Nat.sub_0_r in Hall.
  rewrite (@nth_error_last uintptr (a :: rest) 0 Ho) in Hall.
  rewrite (@nth_error_last uintptr cause 0 Hc) in Hall.
  unfold StackTrace, stack, Frame in *.
  rewrite Hall. rewrite orb_true_r. reflexivity.
Qed.

(** C1. The claim: for [len(candidate) <= len(cause)] the matcher returns
    true exactly when every tail position of [candidate] equals the same
    tail position of [cause].  The code accepts more: with
    [cause = [1;2;3;4;5]], the candidate [[3;4;5]] agrees at every tail
    position and is accepted, and so is [[9;4;5]], which differs from the
    cause at a compared position. *)
Theorem ancestorOfCause_accepts_inner_mismatch :
  tail_aligned [3; 4; 5] [1; 2; 3; 4; 5] = true
  /\ ancestorOfCause [3; 4; 5] [1; 2; 3; 4; 5] = Ret true
  /\ tail_aligned [9; 4; 5] [1; 2; 3; 4; 5] = false
  /\ ancestorOfCause [9; 4; 5] [1; 2; 3; 4; 5] = Ret true.
Proof. repeat split; reflexivity. Qed.

(** ** Searching and slicing strings *)

Lemma prefix_char (c a : ascii) (s : string) :
  String.prefix (String c "") (String a s) = Ascii.eqb a c.
Proof.
  simpl. destruct (ascii_dec c a) as [-> | Hne].
  - rewrite Ascii.eqb_refl. destruct s; reflexivity.
  - symmetry. apply Ascii.eqb_neq. congruence.
Qed.

Lemma prefix_nonempty_length (sub s : string) :
  sub <> "" -> String.prefix sub s = true -> (0 < String.length s)%nat.
Proof.
  destruct sub as [| c sub]; [congruence |].
  destruct s as [| a s]; simpl; [discriminate | lia].
Qed.

(** [strings.Index] with a non-empty separator answers [-1] or a position
    of [s], so [s[i+1:]] is in range. *)
Lemma Index_range (s sub : string) :
  sub <> "" -> -1 <= Index s sub < slen s.
Proof.
  intros Hsub. unfold slen. induction s as [| a s IH].
  - simpl. destruct sub; [congruence | simpl; lia].
  - cbn [Index].
    destruct (String.prefix sub (String a s)) eqn:Hp.
    + simpl String.length. lia.
    + destruct (Index s sub <? 0) eqn:Hneg; simpl String.length.
      * lia.
      * apply Z.ltb_ge in Hneg. lia.
Qed.

Lemma LastIndex_range (s sub : string) :
  sub <> "" -> -1 <= LastIndex s sub < slen s.
Proof.
  intros Hsub. unfold slen. induction s as [| a s IH].
  - simpl. destruct sub; [congruence | simpl; lia].
  - cbn [LastIndex].
    destruct (0 <=? LastIndex s sub) eqn:Hpos; simpl String.length.
    + apply Z.leb_le in Hpos. lia.
    + destruct (String.prefix sub (String a s)); lia.
Qed.

(** The first occurrence of a byte splits the string around it. *)
Lemma Index_char (c : ascii) (s : string) :
  (occurs c s = false /\ Index s (String c "") = -1)
  \/ (exists p r, s = p ++ String c r /\ occurs c p = false
                  /\ Index s (String c "") = slen p).
Proof.
  induction s as [| a s IH].
  - left. split; reflexivity.
  - cbn [Index occurs]. rewrite prefix_char.
    destruct (Ascii.eqb_spec a c) as [-> | Hne].
    + right. exists "", s. repeat split.
    + cbn [orb]. destruct IH as [[Hno Hi] | (p & r & Hs & Hno & Hi)].
      * left. rewrite Hi. split; [exact Hno | reflexivity].
      * right. exists (String a p), r. rewrite Hi.
        assert (Hp : (slen p <? 0) = false)
          by (apply Z.ltb_ge; unfold slen; lia).
        rewrite Hp. repeat split.
        -- simpl. rewrite <- Hs. reflexivity.
        -- simpl. apply Ascii.eqb_neq in Hne. rewrite Hne, Hno. reflexivity.
        -- unfold slen. simpl String.length. lia.
Qed.

(** The last occurrence of a byte splits the string around it. *)
Lemma LastIndex_char (c : ascii) (s : string) :
  (occurs c s = false /\ LastIndex s (String c "") = -1)
  \/ (exists p r, s = p ++ String c r /\ occurs c r = false
                  /\ LastIndex s (String c "") = slen p).
Proof.
  induction s as [| a s IH].
  - left. split; reflexivity.
  - cbn [LastIndex occurs]. rewrite prefix_char.
    destruct IH as [[Hno Hi] | (p & r & Hs & Hno & Hi)].
    + rewrite Hi. cbn [Z.leb Z.compare]. rewrite Hno, orb_false_r.
      destruct (Ascii.eqb_spec a c) as [-> | Hne].
      * right. exists "", s. repeat split. exact Hno.
      * left. split; reflexivity.
    + right. exists (String a p), r. rewrite Hi.
      assert (Hp : (0 <=? slen p) = true) by (apply Z.leb_le; unfold slen; lia).
      rewrite Hp. repeat split.
      * simpl. rewrite <- Hs. reflexivity.
      * exact Hno.
      * unfold slen. simpl String.length. lia.
Qed.

Lemma slice_from_zero (s : string) : slice_from s 0 = s.
Proof. unfold slice_from. simpl. destruct s; reflexivity. Qed.

Lemma slice_from_after (p r : string) (c : ascii) :
  slice_from (p ++ String c r) (slen p + 1) = r.
Proof.
  unfold slice_from, slen.
  replace (Z.to_nat (Z.of_nat (String.length p) + 1)) with (S (String.length p)) by lia.
  induction p as [| a p IH]; [reflexivity | exact IH].
Qed.

(** C5. [funcname] removes everything up to and including the last ['/'],
    and from what is left everything up to and including the first ['.'];
    what is left of a name without ['.'] after the first step is returned
    as it is.  Stated by the pieces of the name: [base] is the part after
    the last ['/'] (the whole name when there is none) and the result is
    the part of [base] after its first ['.'] ([base] itself when there is
    none).  The two examples of the specification are evaluated. *)
Theorem funcname_strips_path_and_package (name : string) :
  (exists base : string,
      ((occurs "/" name = false /\ base = name)
       \/ (exists dir, name = dir ++ "/" ++ base /\ occurs "/" base = false))
      /\ ((occurs "." base = false /\ funcname name = base)
          \/ (exists pkg, base = pkg ++ "." ++ funcname name
                          /\ occurs "." pkg = false)))
  /\ funcname "a/b/pkg.Type.Method" = "Type.Method"
  /\ funcname "pkg.Func" = "Func"
  /\ funcname "a/b/main" = "main"
  /\ funcname "main" = "main".
Proof.
  split; [| repeat split; reflexivity].
  unfold funcname.
  set (base := slice_from name (LastIndex name "/" + 1)).
  exists base. split.
  - destruct (LastIndex_char "/" name) as [[Hno Hi] | (p & r & Hs & Hno & Hi)].
    + left. split; [exact Hno |].
      subst base. rewrite Hi. apply slice_from_zero.
    + right. exists p.
      assert (Hb : base = r)
        by (subst base; rewrite Hi; rewrite Hs at 1; apply slice_from_after).
      rewrite Hb. split; [exact Hs | exact Hno].
  - destruct (Index_char "." base) as [[Hno Hi] | (p & r & Hs & Hno & Hi)].
    + left. split; [exact Hno |].
      rewrite Hi. apply slice_from_zero.
    + right. exists p.
      assert (Hr : slice_from base (Index base "." + 1) = r)
        by (rewrite Hi; rewrite Hs at 1; apply slice_from_after).
      rewrite Hr. split; [exact Hs | exact Hno].
Qed.

(** X8. The two slice expressions of [funcname], [name[i+1:]] after
    [strings.LastIndex] and after [strings.Index], are in range for every
    name, also when the separator is absent ([i = -1]) or is the last
    byte: [funcname] never panics. *)
Lemma funcname_slices_in_range (name : string) :
  0 <= LastIndex name "/" + 1 <= slen name
  /\ let base := slice_from name (LastIndex name "/" + 1) in
     0 <= Index base "." + 1 <= slen base.
Proof.
  split.
  - assert (Hsep : "/" <> "") by discriminate.
    pose proof (LastIndex_range name "/" Hsep). lia.
  - intros base. assert (Hsep : "." <> "") by discriminate.
    pose proof (Index_range base "." Hsep). lia.
Qed.

(** ** Resolution of frames *)

(** C6. A frame whose address the function table does not resolve has the
    file ["unknown"], the line [0] and the name ["unknown"]; the three
    accessors are total functions, so resolution raises nothing. *)
Theorem unresolved_frame_sentinels {host : Host} (f : Frame) :
  FuncForPC (Frame_pc f) = None ->
  Frame_file f = "unknown" /\ Frame_line f = 0 /\ Frame_name f = "unknown".
Proof.
  intros Hnone. unfold Frame_file, Frame_line, Frame_name.
  rewrite Hnone. repeat split.
Qed.

Lemma unresolved_frame_sentinels_witness :
  @Frame_file example_host 5 = "unknown"
  /\ @Frame_line example_host 5 = 0
  /\ @Frame_name example_host 5 = "unknown".
Proof.
  apply (@unresolved_frame_sentinels example_host 5). reflexivity.
Defined.

(** The frame [0] resolves through the program counter [2^64 - 1]. *)
Lemma Frame_pc_zero : Frame_pc 0 = uintptr_modulus - 1.
Proof. reflexivity. Qed.

Lemma Frame_pc_range (f : Frame) : is_uintptr (Frame_pc f).
Proof.
  unfold is_uintptr, Frame_pc, wrap_uintptr, uintptr_modulus.
  apply Z.mod_pos_bound. lia.
Qed.

(** ** The machine rendering *)

(** C7. The claim: [MarshalText] renders ["<function name> <full file
    path>:<line>"] when the address resolves to a function, the literal
    ["unknown"] when it does not, and never fails.  The code tests the
    name against the sentinel instead of testing whether the address
    resolved, so the two collide on a function that is itself named
    ["unknown"]: the address of frame 11 resolves, the rendering the claim
    and the docstring of [MarshalText] ask for is ["unknown /src/u.s:7"],
    the verb [%+v] of the same frame keeps the file and the line, and
    [MarshalText] returns the bare ["unknown"]. *)
Theorem MarshalText_bare_name_differs :
  @FuncForPC bare_name_host (Frame_pc 11)
    = Some (mkFunc "unknown" (fun _ => ("/src/u.s", 7)))
  /\ @machine_text_worded bare_name_host 11 = "unknown /src/u.s:7"
  /\ @Verbose_Frame bare_name_host 11 = "unknown" ++ newline ++ tab ++ "/src/u.s:7"
  /\ @Frame_MarshalText bare_name_host 11 = ("unknown", None)
  /\ fst (@Frame_MarshalText bare_name_host 11) <> @machine_text_worded bare_name_host 11.
Proof.
  repeat split. vm_compute. discriminate.
Qed.

(** What [MarshalText] returns for every frame: the rendering
    ["<function name> <file>:<line>"] for a resolved function whose name
    is not the word ["unknown"], the literal ["unknown"] for an unresolved
    address, and, by the collision of the name with the sentinel, the
    literal ["unknown"] also for a resolved function of that name; the
    error is always nil. *)
Lemma MarshalText_rendering {host : Host} (f : Frame) :
  Frame_MarshalText f =
    (match FuncForPC (Frame_pc f) with
     | Some fn =>
         if String.eqb (Func_Name fn) "unknown" then "unknown"
         else machine_text_worded f
     | None => "unknown"
     end, None)
  /\ snd (Frame_MarshalText f) = None.
Proof.
  unfold Frame_MarshalText, machine_text_worded, Frame_name, Frame_file, Frame_line.
  destruct (FuncForPC (Frame_pc f)) as [fn |].
  - destruct (String.eqb_spec (Func_Name fn) "unknown") as [Heq | Hne].
    + rewrite Heq. split; reflexivity.
    + split; reflexivity.
  - split; reflexivity.
Qed.

(** ** What the formatters write *)

Lemma sapp_assoc (a b c : string) : (a ++ b) ++ c = a ++ b ++ c.
Proof. induction a as [| x a IH]; simpl; [reflexivity | rewrite IH; reflexivity]. Qed.

Lemma sapp_nil_r (a : string) : a ++ "" = a.
Proof. induction a as [| x a IH]; simpl; [reflexivity | rewrite IH; reflexivity]. Qed.

Section Formatting.

Context {host : Host}.

Lemma WriteString_written (s : State) (x : string) :
  written (WriteString s x) = written s ++ x.
Proof. reflexivity. Qed.

Lemma WriteString_flags (s : State) (x : string) :
  flags (WriteString s x) = flags s.
Proof. reflexivity. Qed.

(** The equation of the source for the verb ['v']: [Format] with ['s'],
    a colon, [Format] with ['d']. *)
Lemma Frame_Format_v (f : Frame) (s : State) :
  Frame_Format f s (rune_of "v") =
    Frame_Format f (WriteString (Frame_Format f s (rune_of "s")) ":") (rune_of "d").
Proof. reflexivity. Qed.

(** [Frame_Format] satisfies the recursive definition of the source. *)
Lemma Frame_Format_unfold (f : Frame) (s : State) (verb : rune) :
  Frame_Format f s verb =
    if verb =? rune_of "s" then
      if Flag s (rune_of "+") then
        WriteString (WriteString (WriteString s (Frame_name f)) (newline ++ tab))
                    (Frame_file f)
      else WriteString s (path_Base (Frame_file f))
    else if verb =? rune_of "d" then WriteString s (Itoa (Frame_line f))
    else if verb =? rune_of "n" then WriteString s (funcname (Frame_name f))
    else if verb =? rune_of "v" then
      Frame_Format f (WriteString (Frame_Format f s (rune_of "s")) ":") (rune_of "d")
    else s.
Proof. reflexivity. Qed.

(** More fuel changes nothing: the nesting of [Format] stops at depth two. *)
Lemma Frame_Format_fuel_enough (n : nat) (f : Frame) (s : State) (verb : rune) :
  Frame_Format_fuel (S (S n)) f s verb = Frame_Format f s verb.
Proof.
  unfold Frame_Format. cbn [Frame_Format_fuel].
  destruct (verb =? rune_of "s"); [reflexivity |].
  destruct (verb =? rune_of "d"); [reflexivity |].
  destruct (verb =? rune_of "n"); [reflexivity |].
  destruct (verb =? rune_of "v"); [| reflexivity].
  destruct n; reflexivity.
Qed.

Lemma Frame_Format_s_plain (f : Frame) (s : State) :
  Flag s (rune_of "+") = false ->
  Frame_Format f s (rune_of "s") = WriteString s (path_Base (Frame_file f)).
Proof. intros Hf. unfold Frame_Format. cbn [Frame_Format_fuel]. rewrite Hf. reflexivity. Qed.

Lemma Frame_Format_s_plus (f : Frame) (s : State) :
  Flag s (rune_of "+") = true ->
  Frame_Format f s (rune_of "s") =
    WriteString (WriteString (WriteString s (Frame_name f)) (newline ++ tab))
                (Frame_file f).
Proof. intros Hf. unfold Frame_Format. cbn [Frame_Format_fuel]. rewrite Hf. reflexivity. Qed.

Lemma Frame_Format_d (f : Frame) (s : State) :
  Frame_Format f s (rune_of "d") = WriteString s (Itoa (Frame_line f)).
Proof. reflexivity. Qed.

(** The verb ['n'] writes the normalised name. *)
Lemma NameOnly_Frame_text (f : Frame) :
  NameOnly_Frame f = funcname (Frame_name f).
Proof. reflexivity. Qed.

(** Without the flag [+], the verb ['v'] appends the compact text. *)
Lemma Frame_Format_v_plain (f : Frame) (s : State) :
  Flag s (rune_of "+") = false ->
  Frame_Format f s (rune_of "v") = mkState (written s ++ compact_text f) (flags s).
Proof.
  intros Hf. rewrite Frame_Format_v, Frame_Format_d, (Frame_Format_s_plain f s Hf).
  unfold WriteString, compact_text. cbn [written flags].
  rewrite !sapp_assoc. reflexivity.
Qed.

(** With the flag [+], the verb ['v'] appends the name as resolved, a
    newline and a tab, the file and the line. *)
Lemma Frame_Format_v_plus (f : Frame) (s : State) :
  Flag s (rune_of "+") = true ->
  Frame_Format f s (rune_of "v") = mkState (written s ++ verbose_text f) (flags s).
Proof.
  intros Hf. rewrite Frame_Format_v, Frame_Format_d, (Frame_Format_s_plus f s Hf).
  unfold WriteString, verbose_text. cbn [written flags].
  rewrite !sapp_assoc. reflexivity.
Qed.

(** The loop of [formatSlice] from index [i] on: a space before every
    frame but the one at index [0]. *)
Lemma formatSlice_loop_written (st : list Frame) :
  forall (i : int) (s : State),
    0 <= i -> Flag s (rune_of "+") = false ->
    formatSlice_loop i st s (rune_of "v") =
      mkState (written s
               ++ match st with
                  | [] => ""
                  | _ :: _ => (if 0 <? i then " " else "")
                              ++ join " " (map compact_text st)
                  end)
              (flags s).
Proof.
  induction st as [| f rest IH]; intros i s Hi Hf.
  - cbn [formatSlice_loop]. rewrite sapp_nil_r. destruct s; reflexivity.
  - cbn [formatSlice_loop].
    set (s1 := if 0 <? i then WriteString s " " else s).
    assert (Hs1 : s1 = mkState (written s ++ (if 0 <? i then " " else "")) (flags s)).
    { subst s1. destruct (0 <? i); [reflexivity |].
      rewrite sapp_nil_r. destruct s; reflexivity. }
    assert (Hf1 : Flag s1 (rune_of "+") = false) by (rewrite Hs1; exact Hf).
    rewrite (Frame_Format_v_plain f s1 Hf1).
    rewrite IH; [| lia | exact Hf1].
    rewrite Hs1. cbn [written flags]. f_equal.
    replace (0 <? i + 1) with true by (symmetry; apply Z.ltb_lt; lia).
    destruct rest as [| g rest'].
    + cbn [map join]. rewrite sapp_nil_r, !sapp_assoc. reflexivity.
    + cbn [map join]. rewrite !sapp_assoc. reflexivity.
Qed.

(** The loop of the [%+v] case: a newline and the verbose text per frame. *)
Lemma format_plus_loop_written (st : list Frame) :
  forall s : State,
    Flag s (rune_of "+") = true ->
    format_plus_loop st s (rune_of "v") =
      mkState (written s ++ newline_each verbose_text st) (flags s).
Proof.
  induction st as [| f rest IH]; intros s Hf.
  - cbn. rewrite sapp_nil_r. destruct s; reflexivity.
  - cbn [format_plus_loop].
    assert (Hf1 : Flag (WriteString s newline) (rune_of "+") = true) by exact Hf.
    rewrite (Frame_Format_v_plus f _ Hf1).
    rewrite IH by exact Hf.
    cbn [written flags WriteString]. f_equal.
    unfold newline_each. cbn [map].
    destruct rest as [| g rest'].
    + cbn [map String.concat]. rewrite sapp_nil_r, !sapp_assoc. reflexivity.
    + cbn [map String.concat]. cbn [append]. rewrite !sapp_assoc. reflexivity.
Qed.

End Formatting.

(** ** The renderings of a stack trace *)

(** C8. The compact rendering of a trace is ["["], the compact renderings
    of its frames in order with one space between neighbours, and ["]"],
    where the compact rendering of a frame is the base name of its file, a
    colon and its line; a trace of two frames that resolve to [a.go:1] and
    [b.go:2] renders as ["[a.go:1 b.go:2]"]. *)
Theorem Compact_StackTrace_layout :
  (forall (host : Host) (st : StackTrace),
      Compact_StackTrace st = "[" ++ join " " (map compact_text st) ++ "]")
  /\ (forall (host : Host) (f : Frame),
         Compact_Frame f = path_Base (Frame_file f) ++ ":" ++ Itoa (Frame_line f))
  /\ @Compact_StackTrace example_host [11; 21] = "[a.go:1 b.go:2]".
Proof.
  split; [| split].
  - intros host st.
    unfold Compact_StackTrace, Sprint_StackTrace, StackTrace_Format.
    change (rune_of "v" =? rune_of "v") with true.
    change (Flag {| written := ""; flags := no_flags |} (rune_of "+")) with false.
    change (Flag {| written := ""; flags := no_flags |} (rune_of "#")) with false.
    cbv iota. unfold StackTrace_formatSlice.
    rewrite formatSlice_loop_written; [| lia | reflexivity].
    cbn [WriteString written flags Z.ltb Z.compare append].
    destruct st as [| f rest]; reflexivity.
  - intros host f. unfold Compact_Frame, Sprint_Frame.
    rewrite Frame_Format_v_plain by reflexivity. reflexivity.
  - reflexivity.
Qed.

(** C9, as worded, fails on a resolved frame: for the function
    ["pkg.Func"] the verbose rendering carries the name as the function
    table reports it, not the normalised ["Func"]. *)
Lemma Verbose_name_not_normalised :
  @Verbose_StackTrace example_host [21]
    = newline ++ "pkg.Func" ++ newline ++ tab ++ "/src/x/b.go:2"
  /\ newline_each (@verbose_text_worded example_host) [21]
    = newline ++ "Func" ++ newline ++ tab ++ "/src/x/b.go:2"
  /\ @Verbose_StackTrace example_host [21]
     <> newline_each (@verbose_text_worded example_host) [21].
Proof.
  repeat split. vm_compute. discriminate.
Qed.

(** C9, amended. The verbose rendering of a trace is, for every frame in
    order, a newline followed by the verbose rendering of the frame, which
    is the function name as the function table reports it (not
    normalised), a newline and a tab, the full file path, a colon and the
    line; an unresolved frame renders as ["unknown\n\tunknown:0"]. *)
Theorem Verbose_StackTrace_layout {host : Host} (st : StackTrace) (f : Frame) :
  Verbose_StackTrace st = newline_each verbose_text st
  /\ Verbose_Frame f
     = Frame_name f ++ newline ++ tab ++ Frame_file f ++ ":" ++ Itoa (Frame_line f)
  /\ (FuncForPC (Frame_pc f) = None ->
      Verbose_Frame f = "unknown" ++ newline ++ tab ++ "unknown:0").
Proof.
  assert (Hframe : Verbose_Frame f = verbose_text f).
  { unfold Verbose_Frame, Sprint_Frame.
    rewrite Frame_Format_v_plus by reflexivity. reflexivity. }
  split; [| split].
  - unfold Verbose_StackTrace, Sprint_StackTrace, StackTrace_Format.
    change (rune_of "v" =? rune_of "v") with true.
    change (Flag {| written := ""; flags := plus_flag |} (rune_of "+")) with true.
    cbv iota. rewrite format_plus_loop_written by reflexivity. reflexivity.
  - exact Hframe.
  - intros Hnone. rewrite Hframe. unfold verbose_text, Frame_name, Frame_file, Frame_line.
    rewrite Hnone. reflexivity.
Qed.

Lemma Verbose_StackTrace_layout_witness :
  @Verbose_Frame example_host 5 = "unknown" ++ newline ++ tab ++ "unknown:0".
Proof.
  apply (proj2 (proj2 (@Verbose_StackTrace_layout example_host [11; 5] 5))).
  reflexivity.
Defined.

(** [stack.Format] with [%+v] writes what [StackTrace.Format] writes for
    the same program counters. *)
Lemma stack_Format_written {host : Host} (s : stack) (st : State) :
  Flag st (rune_of "+") = true ->
  written (stack_Format s st (rune_of "v"))
  = written (StackTrace_Format s st (rune_of "v")).
Proof.
  intros Hf. unfold stack_Format, StackTrace_Format.
  change (rune_of "v" =? rune_of "v") with true. cbv iota. rewrite Hf.
  rewrite format_plus_loop_written by exact Hf. cbn [written].
  revert st Hf. induction s as [| pc rest IH]; intros st Hf.
  - cbn. rewrite sapp_nil_r. reflexivity.
  - cbn [fold_left]. rewrite IH by exact Hf.
    unfold Fprintf_nl_plus_v. rewrite Frame_Format_v_plus by reflexivity.
    cbn [written flags]. unfold newline_each. cbn [map].
    destruct rest as [| g rest'].
    + cbn [map String.concat]. rewrite sapp_nil_r, !sapp_assoc. reflexivity.
    + cbn [map String.concat]. cbn [append]. rewrite !sapp_assoc. reflexivity.
Qed.

(** ** Capture *)

Lemma slice_prefix {A : Type} (recorded rest : list A) :
  slice (recorded ++ rest)%list 0 (len recorded) = Ret recorded.
Proof.
  unfold slice, len. rewrite length_app.
  replace (0 <? 0) with false by reflexivity.
  replace (Z.of_nat (List.length recorded) <? 0) with false
    by (symmetry; apply Z.ltb_ge; lia).
  replace (Z.of_nat (List.length recorded + List.length rest)
           <? Z.of_nat (List.length recorded)) with false
    by (symmetry; apply Z.ltb_ge; lia).
  cbn [orb]. rewrite Z.sub_0_r, Nat2Z.id. cbn [Z.to_nat skipn].
  rewrite firstn_app, Nat.sub_diag, firstn_all. cbn [firstn].
  rewrite app_nil_r. reflexivity.
Qed.

(** What [callers] returns: the 32 innermost entries of the chain after
    the skipped ones, and never a panic. *)
Lemma callers_returns (chain : list uintptr) (skip : int) :
  callers chain skip =
    Ret (firstn 32 (skipn (Z.to_nat (wrap_int (skip + 3))) chain)).
Proof.
  unfold callers, runtime_Callers.
  rewrite repeat_length.
  change (Z.to_nat depth) with 32%nat.
  rewrite slice_prefix. reflexivity.
Qed.

Lemma wrap_int_small (x : Z) : is_int x -> wrap_int x = x.
Proof.
  unfold is_int, min_int, max_int, wrap_int. intros Hx.
  rewrite Z.mod_small by lia. lia.
Qed.

(** C10, as worded, fails where the sum [skip+3] leaves the range of
    Go's [int]: for [extraSkip = max_int - 2] (a non-negative [int]) the
    sum wraps to a negative number, nothing is skipped, and [callers]
    returns the chain from the frame of [runtime.Callers] itself on,
    whereas a baseline of three frames in addition to [extraSkip] would
    skip the whole chain of six entries and leave the empty stack. *)
Lemma callers_skip_wraps :
  0 <= max_int - 2
  /\ is_int (max_int - 2)
  /\ wrap_int (max_int - 2 + 3) = min_int
  /\ callers [100; 101; 102; 103; 104; 105] (max_int - 2)
     = Ret [100; 101; 102; 103; 104; 105]
  /\ capture_worded [100; 101; 102; 103; 104; 105] (max_int - 2) = []
  /\ callers [100; 101; 102; 103; 104; 105] (max_int - 2)
     <> Ret (capture_worded [100; 101; 102; 103; 104; 105] (max_int - 2)).
Proof.
  assert (Hworded : capture_worded [100; 101; 102; 103; 104; 105] (max_int - 2) = []).
  { unfold capture_worded. rewrite skipn_all2; [reflexivity |].
    cbn [List.length]. unfold max_int. lia. }
  assert (Hwrap : wrap_int (max_int - 2 + 3) = min_int) by reflexivity.
  assert (Hrun : callers [100; 101; 102; 103; 104; 105] (max_int - 2)
                 = Ret [100; 101; 102; 103; 104; 105]).
  { rewrite callers_returns, Hwrap. reflexivity. }
  split; [unfold max_int; lia |].
  split; [unfold is_int, min_int, max_int; lia |].
  split; [exact Hwrap |].
  split; [exact Hrun |].
  split; [exact Hworded |].
  rewrite Hrun, Hworded. discriminate.
Qed.

(** C10, amended. For every [extraSkip >= 0], [callers] returns a stack (it
    does not panic) of at most 32 entries, which is the innermost 32
    entries of the call chain after the frames the runtime is asked to
    skip, [extraSkip + 3] in the arithmetic of Go's [int]; whenever that
    sum fits an [int] ([extraSkip + 3 <= max_int]), the stack starts
    [3 + extraSkip] entries into the call chain, and when more than 32
    entries remain there, exactly the innermost 32 of them are
    returned. *)
Theorem callers_at_most_depth (chain : list uintptr) (extraSkip : int) :
  0 <= extraSkip ->
  exists st : stack,
    callers chain extraSkip = Ret st
    /\ (List.length st <= 32)%nat
    /\ st = firstn 32 (skipn (Z.to_nat (wrap_int (extraSkip + 3))) chain)
    /\ (extraSkip + 3 <= max_int ->
        st = firstn 32 (skipn (3 + Z.to_nat extraSkip) chain))
    /\ ((32 < List.length chain - (3 + Z.to_nat extraSkip))%nat ->
        extraSkip + 3 <= max_int ->
        List.length st = 32%nat).
Proof.
  intros Hskip. eexists. split; [apply callers_returns |].
  assert (Hsmall : extraSkip + 3 <= max_int ->
                   Z.to_nat (wrap_int (extraSkip + 3)) = (3 + Z.to_nat extraSkip)%nat).
  { intros Hmax. rewrite wrap_int_small; [lia |].
    unfold is_int, min_int. lia. }
  split; [| split; [| split]].
  - rewrite length_firstn. lia.
  - reflexivity.
  - intros Hmax. rewrite (Hsmall Hmax). reflexivity.
  - intros Hdeep Hmax. rewrite (Hsmall Hmax).
    rewrite length_firstn, length_skipn. lia.
Qed.

Lemma callers_at_most_depth_witness :
  exists st : stack,
    callers (map Z.of_nat (seq 100 40)) 2 = Ret st
    /\ (List.length st <= 32)%nat
    /\ st = firstn 32 (skipn (Z.to_nat (wrap_int (2 + 3))) (map Z.of_nat (seq 100 40)))
    /\ (2 + 3 <= max_int ->
        st = firstn 32 (skipn (3 + Z.to_nat 2) (map Z.of_nat (seq 100 40))))
    /\ ((32 < List.length (map Z.of_nat (seq 100 40)) - (3 + Z.to_nat 2))%nat ->
        2 + 3 <= max_int ->
        List.length st = 32%nat).
Proof.
  apply (callers_at_most_depth (map Z.of_nat (seq 100 40)) 2). lia.
Defined.

(** * Further properties of the code *)

(** ** Traces and the matcher *)

(** X1. [StackTrace()] never panics and returns a trace with as many
    frames as the stack has program counters, the frame at every index
    being the program counter at that index. *)
Theorem stack_StackTrace_projection (s : stack) :
  exists st : StackTrace,
    stack_StackTrace s = Ret st
    /\ List.length st = List.length s
    /\ forall i : nat, nth_error st i = nth_error s i.
Proof.
  exists s. split; [apply stack_StackTrace_same |]. split; reflexivity.
Qed.

Lemma last_cons_nonempty {A : Type} (a : A) (l : list A) (d : A) :
  l <> [] -> last (a :: l) d = last l d.
Proof. destruct l; [congruence | reflexivity]. Qed.

Lemma last_app_nonempty {A : Type} (extra l : list A) (d : A) :
  l <> [] -> last (extra ++ l)%list d = last l d.
Proof.
  intros Hne. induction extra as [| a extra IH]; [reflexivity |].
  cbn [app]. rewrite last_cons_nonempty; [exact IH |].
  destruct extra; [exact Hne | discriminate].
Qed.

Lemma last_skipn {A : Type} (l : list A) (d : A) :
  forall k : nat, (k < List.length l)%nat -> last (skipn k l) d = last l d.
Proof.
  induction l as [| a l IH]; intros k Hk; [simpl in Hk; lia |].
  destruct k as [| k]; [reflexivity |].
  cbn [skipn]. simpl in Hk. rewrite IH by lia.
  symmetry. apply last_cons_nonempty. destruct l; [simpl in Hk; lia | discriminate].
Qed.

(** X2. A stack is accepted as an ancestor of its own trace, and of every
    trace that continues it towards the inside: for a cause whose trace is
    the frames [extra] followed by the trace of the stack, the matcher
    returns true (and neither [StackTrace()] nor the matcher panics). *)
Theorem ancestorOfCause_own_trace_extended (s : stack) (extra : list Frame) :
  (st <- stack_StackTrace s ;; ancestorOfCause s (extra ++ st)%list) = Ret true.
Proof.
  rewrite stack_StackTrace_same. cbn [bind].
  rewrite ancestorOfCause_total_form. unfold last_check, len.
  unfold stack, StackTrace, Frame in *.
  rewrite length_app.
  replace (Z.of_nat (List.length s) <=? Z.of_nat (List.length extra + List.length s))
    with true by (symmetry; apply Z.leb_le; lia).
  destruct s as [| a s]; [reflexivity |].
  rewrite (last_app_nonempty extra (a :: s) 0) by discriminate.
  rewrite Z.eqb_refl, orb_true_r. reflexivity.
Qed.

Lemma last_check_true_inv (n m : int) (x y : uintptr) :
  last_check n m x y = true -> n <= m /\ (n = 0 \/ x = y).
Proof.
  unfold last_check. intros H. apply andb_true_iff in H as [Hle Hor].
  apply Z.leb_le in Hle. apply orb_true_iff in Hor as [H0 | Heq].
  - apply Z.eqb_eq in H0. auto.
  - apply Z.eqb_eq in Heq. auto.
Qed.

(** X3. The relation the matcher decides is transitive: when [a] is
    accepted against [b] and [b] against [c], then [a] is accepted
    against [c]. *)
Theorem ancestorOfCause_transitive (a b c : list uintptr) :
  ancestorOfCause a b = Ret true ->
  ancestorOfCause b c = Ret true ->
  ancestorOfCause a c = Ret true.
Proof.
  rewrite !ancestorOfCause_total_form. unfold stack, StackTrace, Frame.
  intros Hab Hbc.
  injection Hab as Hab. injection Hbc as Hbc.
  apply last_check_true_inv in Hab as [Hab Hab'].
  apply last_check_true_inv in Hbc as [Hbc Hbc'].
  f_equal. unfold last_check.
  replace (len a <=? len c) with true by (symmetry; apply Z.leb_le; lia).
  cbn [andb]. apply orb_true_iff.
  destruct Hab' as [Ha0 | Hlast]; [left; apply Z.eqb_eq; exact Ha0 |].
  destruct Hbc' as [Hb0 | Hlast'].
  - left. apply Z.eqb_eq. pose proof (len_nonneg a). lia.
  - right. apply Z.eqb_eq. congruence.
Qed.

Lemma ancestorOfCause_transitive_witness :
  ancestorOfCause [5] [1; 4; 5] = Ret true.
Proof.
  apply (ancestorOfCause_transitive [5] [4; 5] [1; 4; 5]); reflexivity.
Defined.

Lemma tail_aligned_accepted_witness :
  ancestorOfCause [3; 4; 5] [1; 2; 3; 4; 5] = Ret true.
Proof.
  apply (tail_aligned_accepted [3; 4; 5] [1; 2; 3; 4; 5]); [simpl; lia | reflexivity].
Defined.

Lemma ancestorOfCause_only_last_witness :
  ancestorOfCause [9; 8; 5] [1; 2; 3; 4; 5] = ancestorOfCause [3; 4; 5] [7; 7; 7; 7; 5].
Proof.
  apply (ancestorOfCause_only_last [9; 8; 5] [3; 4; 5] [1; 2; 3; 4; 5] [7; 7; 7; 7; 5]);
    reflexivity.
Defined.

(** ** Frames and program counters *)

(** X6. A frame is its program counter plus one in [uintptr] arithmetic:
    adding one to [pc()] gives the frame back, so distinct frames have
    distinct program counters; [pc()] of a non-zero frame is the frame
    minus one, and the zero frame wraps around to the largest [uintptr]. *)
Theorem Frame_pc_round_trip (f : Frame) :
  is_uintptr f ->
  wrap_uintptr (Frame_pc f + 1) = f
  /\ is_uintptr (Frame_pc f)
  /\ (f <> 0 -> Frame_pc f = f - 1)
  /\ (f = 0 -> Frame_pc f = uintptr_modulus - 1)
  /\ (forall g : Frame, is_uintptr g -> Frame_pc g = Frame_pc f -> g = f).
Proof.
  unfold is_uintptr, Frame_pc, wrap_uintptr, uintptr_modulus. intros Hf.
  assert (Hpc : forall g, 0 <= g < 2 ^ 64 -> ((g - 1) mod 2 ^ 64 + 1) mod 2 ^ 64 = g).
  { intros g Hg. rewrite Z.add_mod_idemp_l by lia.
    replace (g - 1 + 1) with g by lia. apply Z.mod_small. exact Hg. }
  split; [apply Hpc; exact Hf |].
  split; [apply Z.mod_pos_bound; lia |].
  split; [intros Hnz; apply Z.mod_small; lia |].
  split; [intros ->; reflexivity |].
  intros g Hg Heq. rewrite <- (Hpc g Hg), <- (Hpc f Hf), Heq. reflexivity.
Qed.

Lemma Frame_pc_round_trip_witness :
  wrap_uintptr (Frame_pc 11 + 1) = 11 /\ Frame_pc 11 = 11 - 1.
Proof.
  assert (H11 : is_uintptr 11) by (unfold is_uintptr, uintptr_modulus; lia).
  destruct (Frame_pc_round_trip 11 H11) as (Hback & _ & Hpc & _).
  split; [exact Hback | apply Hpc; lia].
Defined.

(** ** Name normalisation *)

Lemma occurs_app (c : ascii) (p r : string) :
  occurs c (p ++ r) = occurs c p || occurs c r.
Proof.
  induction p as [| a p IH]; [reflexivity |].
  cbn [append occurs]. rewrite IH, orb_assoc. reflexivity.
Qed.

Lemma slength_app (p r : string) :
  String.length (p ++ r) = (String.length p + String.length r)%nat.
Proof. induction p as [| a p IH]; [reflexivity | cbn [append String.length]; rewrite IH; reflexivity]. Qed.

(** What is left after the last occurrence of a byte is a suffix without
    that byte. *)
Lemma after_last_suffix (c : ascii) (s : string) :
  exists pre : string,
    s = pre ++ slice_from s (LastIndex s (String c "") + 1)
    /\ occurs c (slice_from s (LastIndex s (String c "") + 1)) = false.
Proof.
  destruct (LastIndex_char c s) as [[Hno Hi] | (p & r & Hs & Hno & Hi)].
  - exists "". rewrite Hi, slice_from_zero. split; [reflexivity | exact Hno].
  - exists (p ++ String c "").
    assert (Hr : slice_from s (LastIndex s (String c "") + 1) = r)
      by (rewrite Hi; rewrite Hs at 1; apply slice_from_after).
    rewrite Hr. split; [| exact Hno].
    rewrite sapp_assoc. exact Hs.
Qed.

(** What is left after the first occurrence of a byte is a suffix. *)
Lemma after_first_suffix (c : ascii) (s : string) :
  exists pre : string, s = pre ++ slice_from s (Index s (String c "") + 1).
Proof.
  destruct (Index_char c s) as [[Hno Hi] | (p & r & Hs & Hno & Hi)].
  - exists "". rewrite Hi, slice_from_zero. reflexivity.
  - exists (p ++ String c "").
    assert (Hr : slice_from s (Index s (String c "") + 1) = r)
      by (rewrite Hi; rewrite Hs at 1; apply slice_from_after).
    rewrite Hr, sapp_assoc. exact Hs.
Qed.

(** X7. [funcname] only cuts at the front: its result is a suffix of the
    name, it holds no path separator ['/'], and it is not longer than the
    name. *)
Theorem funcname_suffix_without_slash (name : string) :
  (exists cut : string, name = cut ++ funcname name)
  /\ occurs "/" (funcname name) = false
  /\ (String.length (funcname name) <= String.length name)%nat.
Proof.
  unfold funcname.
  destruct (after_last_suffix "/" name) as (pre & Hname & Hno).
  set (base := slice_from name (LastIndex name "/" + 1)) in *.
  destruct (after_first_suffix "." base) as (pkg & Hbase).
  set (res := slice_from base (Index base "." + 1)) in *.
  assert (Hcut : name = (pre ++ pkg) ++ res).
  { rewrite sapp_assoc, <- Hbase. exact Hname. }
  split; [exists (pre ++ pkg); exact Hcut |].
  split.
  - rewrite Hbase, occurs_app in Hno. apply orb_false_iff in Hno. apply Hno.
  - pose proof (f_equal String.length Hcut) as Hlen.
    rewrite slength_app in Hlen. lia.
Qed.

(** ** Formatting *)

Section MoreFormatting.

Context {host : Host}.

(** Whatever is already written, [Format] appends the text it would write
    to a fresh printer with the same flags, and leaves the flags alone. *)
Lemma Frame_Format_appends (f : Frame) (s : State) (verb : rune) :
  Frame_Format f s verb =
    mkState (written s ++ Sprint_Frame (flags s) verb f) (flags s).
Proof.
  unfold Sprint_Frame, Frame_Format. cbn [Frame_Format_fuel].
  change (rune_of "s" =? rune_of "s") with true.
  change (rune_of "d" =? rune_of "s") with false.
  change (rune_of "d" =? rune_of "d") with true.
  cbv iota. unfold Flag. cbn [flags].
  destruct (verb =? rune_of "s").
  { destruct (flags s (rune_of "+"));
      unfold WriteString; cbn [written flags append]; rewrite ?sapp_assoc; reflexivity. }
  destruct (verb =? rune_of "d"); [reflexivity |].
  destruct (verb =? rune_of "n"); [reflexivity |].
  destruct (verb =? rune_of "v").
  - destruct (flags s (rune_of "+"));
      unfold WriteString; cbn [written flags append]; rewrite ?sapp_assoc; reflexivity.
  - cbn [written flags]. rewrite sapp_nil_r. destruct s; reflexivity.
Qed.

(** X9. Under every set of flags the verb ['v'] of a frame is the verb
    ['s'], a colon and the verb ['d'] under the same flags: [%v] is
    [%s:%d] and [%+v] is [%+s:%d]. *)
Theorem Frame_v_is_s_colon_d (fl : rune -> bool) (f : Frame) :
  Sprint_Frame fl (rune_of "v") f
  = Sprint_Frame fl (rune_of "s") f ++ ":" ++ Sprint_Frame fl (rune_of "d") f.
Proof.
  unfold Sprint_Frame at 1. rewrite Frame_Format_v.
  rewrite (Frame_Format_appends f (mkState "" fl) (rune_of "s")).
  cbn [written flags append].
  rewrite (Frame_Format_appends f (WriteString _ ":") (rune_of "d")).
  cbn [written flags WriteString]. rewrite sapp_assoc. reflexivity.
Qed.

(** X10. For a frame whose name is not ["unknown"], [MarshalText] returns
    the text of [%+v] with the newline and tab after the name replaced by
    one space, and a nil error. *)
Theorem MarshalText_is_verbose_on_one_line (f : Frame) :
  Frame_name f <> "unknown" ->
  exists rest : string,
    Verbose_Frame f = Frame_name f ++ (newline ++ tab) ++ rest
    /\ Frame_MarshalText f = (Frame_name f ++ " " ++ rest, None).
Proof.
  intros Hname. exists (Frame_file f ++ ":" ++ Itoa (Frame_line f)). split.
  - unfold Verbose_Frame, Sprint_Frame.
    rewrite Frame_Format_v_plus by reflexivity. reflexivity.
  - unfold Frame_MarshalText.
    apply String.eqb_neq in Hname. rewrite Hname. reflexivity.
Qed.

(** The loop of [formatSlice] under any verb and flags. *)
Lemma formatSlice_loop_any (verb : rune) (st : list Frame) :
  forall (i : int) (s : State),
    0 <= i ->
    formatSlice_loop i st s verb =
      mkState (written s
               ++ match st with
                  | [] => ""
                  | _ :: _ => (if 0 <? i then " " else "")
                              ++ join " " (map (Sprint_Frame (flags s) verb) st)
                  end)
              (flags s).
Proof.
  induction st as [| f rest IH]; intros i s Hi.
  - cbn [formatSlice_loop]. rewrite sapp_nil_r. destruct s; reflexivity.
  - cbn [formatSlice_loop].
    set (s1 := if 0 <? i then WriteString s " " else s).
    assert (Hs1 : s1 = mkState (written s ++ (if 0 <? i then " " else "")) (flags s)).
    { subst s1. destruct (0 <? i); [reflexivity |].
      rewrite sapp_nil_r. destruct s; reflexivity. }
    rewrite (Frame_Format_appends f s1 verb).
    rewrite IH by lia.
    rewrite Hs1. cbn [written flags]. f_equal.
    replace (0 <? i + 1) with true by (symmetry; apply Z.ltb_lt; lia).
    destruct rest as [| g rest'].
    + cbn [map join]. rewrite sapp_nil_r, !sapp_assoc. reflexivity.
    + cbn [map join]. rewrite !sapp_assoc. reflexivity.
Qed.

(** X11. [formatSlice] appends an opening bracket, the frames formatted
    with the given verb and the flags of the printer, one space between
    neighbours and none before the first or after the last, and a closing
    bracket; the empty trace gives ["[]"].  [StackTrace.Format] with the
    verb ['s'] is [formatSlice] under every set of flags, so [%s] lists
    the base names of the files and [%+s] lists name, newline, tab and
    full path per frame, inside the brackets. *)
Theorem StackTrace_formatSlice_layout (st : StackTrace) (s : State) (verb : rune) :
  StackTrace_formatSlice st s verb
  = mkState (written s ++ "[" ++ join " " (map (Sprint_Frame (flags s) verb) st) ++ "]")
            (flags s)
  /\ (forall fl : rune -> bool,
         Sprint_StackTrace fl (rune_of "s") st
         = "[" ++ join " " (map (Sprint_Frame fl (rune_of "s")) st) ++ "]")
  /\ (forall f : Frame,
         Sprint_Frame no_flags (rune_of "s") f = path_Base (Frame_file f)
         /\ Sprint_Frame plus_flag (rune_of "s") f
            = Frame_name f ++ newline ++ tab ++ Frame_file f).
Proof.
  assert (Hslice : forall (v : rune) (s0 : State),
             StackTrace_formatSlice st s0 v
             = mkState (written s0 ++ "["
                        ++ join " " (map (Sprint_Frame (flags s0) v) st) ++ "]")
                       (flags s0)).
  { intros v s0. unfold StackTrace_formatSlice.
    rewrite formatSlice_loop_any by lia.
    unfold WriteString. cbn [written flags].
    change (0 <? 0) with false. cbv iota. f_equal.
    destruct st as [| f rest]; rewrite !sapp_assoc; reflexivity. }
  split; [apply Hslice |]. split.
  - intros fl. unfold Sprint_StackTrace, StackTrace_Format.
    change (rune_of "s" =? rune_of "v") with false.
    change (rune_of "s" =? rune_of "s") with true. cbv iota.
    rewrite Hslice. reflexivity.
  - intros f. split.
    + unfold Sprint_Frame. rewrite Frame_Format_s_plain by reflexivity. reflexivity.
    + unfold Sprint_Frame. rewrite Frame_Format_s_plus by reflexivity.
      cbn [WriteString written append]. rewrite !sapp_assoc. reflexivity.
Qed.

(** X12. An unresolved frame formats with the sentinels under every verb:
    [%s] and [%n] give ["unknown"], [%d] gives ["0"], [%v] gives
    ["unknown:0"], and [%+s] gives ["unknown\n\tunknown"]. *)
Theorem unresolved_frame_formats (f : Frame) :
  FuncForPC (Frame_pc f) = None ->
  Sprint_Frame no_flags (rune_of "s") f = "unknown"
  /\ Sprint_Frame no_flags (rune_of "d") f = "0"
  /\ Sprint_Frame no_flags (rune_of "n") f = "unknown"
  /\ Sprint_Frame no_flags (rune_of "v") f = "unknown:0"
  /\ Sprint_Frame plus_flag (rune_of "s") f = "unknown" ++ newline ++ tab ++ "unknown".
Proof.
  intros Hnone.
  assert (Hn : Frame_name f = "unknown") by (unfold Frame_name; rewrite Hnone; reflexivity).
  assert (Hfile : Frame_file f = "unknown") by (unfold Frame_file; rewrite Hnone; reflexivity).
  assert (Hl : Frame_line f = 0) by (unfold Frame_line; rewrite Hnone; reflexivity).
  unfold Sprint_Frame.
  rewrite Frame_Format_v_plain, Frame_Format_s_plain, Frame_Format_s_plus by reflexivity.
  rewrite Frame_Format_d. unfold compact_text.
  rewrite (Frame_Format_unfold f _ (rune_of "n")).
  rewrite Hn, Hfile, Hl. repeat split.
Qed.

(** X13. [Frame.Format] writes nothing for a verb other than ['s'], ['d'],
    ['n'] and ['v'], and [StackTrace.Format] writes nothing for a verb
    other than ['v'] and ['s']: the printer is returned as it was. *)
Theorem Format_ignores_other_verbs (s : State) (verb : rune) :
  verb <> rune_of "s" -> verb <> rune_of "v" ->
  (forall st : StackTrace, StackTrace_Format st s verb = s)
  /\ (verb <> rune_of "d" -> verb <> rune_of "n" ->
      forall f : Frame, Frame_Format f s verb = s).
Proof.
  intros Hs Hv. apply Z.eqb_neq in Hs, Hv. split.
  - intros st. unfold StackTrace_Format. rewrite Hv, Hs. reflexivity.
  - intros Hd Hn f. apply Z.eqb_neq in Hd, Hn.
    rewrite Frame_Format_unfold, Hs, Hd, Hn, Hv. reflexivity.
Qed.

(** X14. [stack.Format] writes only for [%+v], and what it writes there is
    what [StackTrace.Format] writes for the same program counters; for
    every other verb, and for ['v'] without the flag [+] (where a
    [StackTrace] prints in brackets), the printer is returned as it was. *)
Theorem stack_Format_only_plus_v (pcs : stack) (st : State) (verb : rune) :
  (verb = rune_of "v" -> Flag st (rune_of "+") = true ->
   written (stack_Format pcs st verb) = written (StackTrace_Format pcs st verb)
   /\ flags (stack_Format pcs st verb) = flags st)
  /\ (verb <> rune_of "v" \/ Flag st (rune_of "+") = false ->
      stack_Format pcs st verb = st).
Proof.
  split.
  - intros -> Hf. split; [apply stack_Format_written; exact Hf |].
    unfold stack_Format. change (rune_of "v" =? rune_of "v") with true.
    cbv iota. rewrite Hf. clear Hf. revert st.
    induction pcs as [| pc rest IH]; intros st; [reflexivity |].
    cbn [fold_left]. rewrite IH. reflexivity.
  - intros [Hv | Hf]; unfold stack_Format.
    + apply Z.eqb_neq in Hv. rewrite Hv. reflexivity.
    + rewrite Hf. destruct (verb =? rune_of "v"); reflexivity.
Qed.

End MoreFormatting.

Lemma MarshalText_is_verbose_on_one_line_witness :
  exists rest : string,
    @Verbose_Frame example_host 11
      = @Frame_name example_host 11 ++ (newline ++ tab) ++ rest
    /\ @Frame_MarshalText example_host 11
       = (@Frame_name example_host 11 ++ " " ++ rest, None).
Proof.
  apply (@MarshalText_is_verbose_on_one_line example_host 11). discriminate.
Defined.

Lemma unresolved_frame_formats_witness :
  @Sprint_Frame example_host no_flags (rune_of "s") 5 = "unknown"
  /\ @Sprint_Frame example_host no_flags (rune_of "d") 5 = "0"
  /\ @Sprint_Frame example_host no_flags (rune_of "n") 5 = "unknown"
  /\ @Sprint_Frame example_host no_flags (rune_of "v") 5 = "unknown:0"
  /\ @Sprint_Frame example_host plus_flag (rune_of "s") 5
     = "unknown" ++ newline ++ tab ++ "unknown".
Proof.
  apply (@unresolved_frame_formats example_host 5). reflexivity.
Defined.

Lemma Format_ignores_other_verbs_witness :
  (forall st : StackTrace,
      @StackTrace_Format example_host st (mkState "" no_flags) (rune_of "x")
      = mkState "" no_flags)
  /\ (forall f : Frame,
         @Frame_Format example_host f (mkState "" no_flags) (rune_of "x")
         = mkState "" no_flags).
Proof.
  destruct (@Format_ignores_other_verbs example_host (mkState "" no_flags) (rune_of "x"))
    as [Htrace Hframe]; [discriminate | discriminate |].
  split; [exact Htrace | apply Hframe; discriminate].
Defined.

Lemma stack_Format_only_plus_v_witness :
  written (@stack_Format example_host [11; 21] (mkState "" plus_flag) (rune_of "v"))
  = written (@StackTrace_Format example_host [11; 21] (mkState "" plus_flag) (rune_of "v"))
  /\ @stack_Format example_host [11; 21] (mkState "" no_flags) (rune_of "v")
     = mkState "" no_flags.
Proof.
  split.
  - apply (proj1 (@stack_Format_only_plus_v example_host [11; 21]
                    (mkState "" plus_flag) (rune_of "v"))); reflexivity.
  - apply (proj2 (@stack_Format_only_plus_v example_host [11; 21]
                    (mkState "" no_flags) (rune_of "v"))). right. reflexivity.
Defined.

(** ** Capture and matching together *)

Lemma callers_in_range (chain : list uintptr) (skip : int) :
  -3 <= skip -> skip + 3 <= max_int ->
  callers chain skip = Ret (firstn 32 (skipn (Z.to_nat (skip + 3)) chain)).
Proof.
  intros Hlo Hhi. rewrite callers_returns, wrap_int_small; [reflexivity |].
  unfold is_int, min_int. lia.
Qed.

(** X15. Skipping one frame more is capturing from the caller: for a skip
    from [-3] on whose sum with the baseline fits an [int], [callers] with
    [skip + 1] on a call chain returns what [callers] with [skip] returns
    on that chain without its innermost frame. *)
Theorem callers_skip_one_more (a : uintptr) (chain : list uintptr) (skip : int) :
  -3 <= skip -> skip + 4 <= max_int ->
  callers (a :: chain) (skip + 1) = callers chain skip.
Proof.
  intros Hlo Hhi.
  rewrite !callers_in_range by lia.
  replace (Z.to_nat (skip + 1 + 3)) with (S (Z.to_nat (skip + 3))) by lia.
  reflexivity.
Qed.

Lemma callers_skip_one_more_witness :
  callers [100; 101; 102; 103; 104; 105] (0 + 1) = callers [101; 102; 103; 104; 105] 0.
Proof.
  apply (callers_skip_one_more 100 [101; 102; 103; 104; 105] 0); unfold max_int; lia.
Defined.

(** X16. When the skip, with the baseline, reaches or passes the end of
    the call chain, [callers] returns the empty stack and no panic. *)
Theorem callers_beyond_chain (chain : list uintptr) (skip : int) :
  -3 <= skip -> skip + 3 <= max_int ->
  len chain <= skip + 3 ->
  callers chain skip = Ret [].
Proof.
  intros Hlo Hhi Hshallow.
  rewrite callers_in_range by lia.
  rewrite skipn_all2 by (unfold len in Hshallow; lia).
  reflexivity.
Qed.

Lemma callers_beyond_chain_witness :
  callers [100; 101; 102; 103] 1 = Ret [].
Proof.
  apply (callers_beyond_chain [100; 101; 102; 103] 1);
    unfold max_int, len; simpl; lia.
Defined.

(** X17. A capture taken further out on the same call chain is accepted
    against a capture taken further in.  Let the chain at the inner
    capture be [inner ++ common] and the chain at the outer capture
    [outer ++ common], with [common] not empty, [outer] no longer than
    [inner], and the inner chain short enough that its capture is not cut
    (at most 32 entries after the three skipped).  Then both calls of
    [callers] return, and the matcher accepts the outer stack against the
    trace of the inner one. *)
Theorem outer_capture_is_ancestor (inner outer common : list uintptr) :
  common <> [] ->
  (List.length outer <= List.length inner)%nat ->
  (List.length (inner ++ common)%list <= 35)%nat ->
  exists ours cause : stack,
    callers (outer ++ common)%list 0 = Ret ours
    /\ callers (inner ++ common)%list 0 = Ret cause
    /\ (st <- stack_StackTrace cause ;; ancestorOfCause ours st) = Ret true.
Proof.
  intros Hcommon Hlen Hfit.
  assert (Hrange : -3 <= 0 /\ 0 + 3 <= max_int) by (unfold max_int; lia).
  destruct Hrange as [Hlo Hhi].
  rewrite !callers_in_range by assumption.
  change (Z.to_nat (0 + 3)) with 3%nat.
  do 2 eexists. split; [reflexivity |]. split; [reflexivity |].
  rewrite stack_StackTrace_same. cbn [bind].
  rewrite length_app in Hfit.
  assert (Ho : List.length (outer ++ common)%list
               = (List.length outer + List.length common)%nat) by apply length_app.
  assert (Hi : List.length (inner ++ common)%list
               = (List.length inner + List.length common)%nat) by apply length_app.
  rewrite !firstn_all2 by (rewrite length_skipn; lia).
  rewrite ancestorOfCause_total_form. unfold last_check, len.
  unfold stack, StackTrace, Frame in *.
  rewrite !length_skipn.
  replace (Z.of_nat (List.length (outer ++ common)%list - 3)
           <=? Z.of_nat (List.length (inner ++ common)%list - 3))
    with true by (symmetry; apply Z.leb_le; lia).
  cbn [andb]. f_equal. apply orb_true_iff.
  destruct (Nat.le_gt_cases (List.length (outer ++ common)%list) 3) as [Hshort | Hlong].
  - left. apply Z.eqb_eq. lia.
  - right. apply Z.eqb_eq.
    rewrite !last_skipn by lia.
    rewrite !last_app_nonempty by exact Hcommon. reflexivity.
Qed.

Lemma outer_capture_is_ancestor_witness :
  exists ours cause : stack,
    callers ([1; 2; 3; 40] ++ [50; 60])%list 0 = Ret ours
    /\ callers ([1; 2; 7; 8; 9; 41] ++ [50; 60])%list 0 = Ret cause
    /\ (st <- stack_StackTrace cause ;; ancestorOfCause ours st) = Ret true.
Proof.
  apply (outer_capture_is_ancestor [1; 2; 7; 8; 9; 41] [1; 2; 3; 40] [50; 60]);
    [discriminate | simpl; lia | simpl; lia].
Defined.

Lemma NoDup_map_of_nat (l : list nat) : NoDup l -> NoDup (map Z.of_nat l).
Proof.
  induction 1 as [| x l Hnotin Hnodup IH]; cbn [map]; constructor; [| exact IH].
  intros Hin. apply in_map_iff in Hin as (y & Hy & Hiny).
  apply Nat2Z.inj in Hy. subst y. contradiction.
Qed.

(** X18. A capture that was cut at 32 entries no longer matches.  On a
    call chain [inner ++ common] without repeated addresses and with more
    than 32 entries after the three skipped, the inner capture loses the
    outermost frames; an outer capture on [outer ++ common] that is not
    empty and not cut still ends with the outermost frame, and the matcher
    returns false for the pair. *)
Theorem cut_capture_is_rejected (inner outer common : list uintptr) :
  NoDup (inner ++ common)%list ->
  common <> [] ->
  (35 < List.length (inner ++ common)%list)%nat ->
  (3 < List.length (outer ++ common)%list <= 35)%nat ->
  exists ours cause : stack,
    callers (outer ++ common)%list 0 = Ret ours
    /\ callers (inner ++ common)%list 0 = Ret cause
    /\ List.length cause = 32%nat
    /\ (st <- stack_StackTrace cause ;; ancestorOfCause ours st) = Ret false.
Proof.
  intros Hnodup Hcommon Hdeep [Hnonempty Hfit].
  assert (Hlo : -3 <= 0) by lia.
  assert (Hhi : 0 + 3 <= max_int) by (unfold max_int; lia).
  rewrite !callers_in_range by assumption.
  change (Z.to_nat (0 + 3)) with 3%nat.
  set (A := (inner ++ common)%list) in *. set (B := (outer ++ common)%list) in *.
  do 2 eexists. split; [reflexivity |]. split; [reflexivity |].
  assert (Hcl : List.length (firstn 32 (skipn 3 A)) = 32%nat)
    by (rewrite length_firstn, length_skipn; lia).
  split; [exact Hcl |].
  rewrite stack_StackTrace_same. cbn [bind].
  rewrite (@firstn_all2 uintptr 32 (skipn 3 B)) by (rewrite length_skipn; lia).
  rewrite ancestorOfCause_total_form. unfold last_check, len.
  unfold stack, StackTrace, Frame in *.
  rewrite Hcl, length_skipn.
  replace (Z.of_nat (List.length B - 3) <=? Z.of_nat 32)
    with true by (symmetry; apply Z.leb_le; lia).
  replace (Z.of_nat (List.length B - 3) =? 0)
    with false by (symmetry; apply Z.eqb_neq; lia).
  cbn [andb orb]. f_equal. apply Z.eqb_neq. intros Heq.
  (* the last address of the outer capture is the last of the chain *)
  rewrite last_skipn in Heq by lia.
  assert (HlastB : last B 0 = last A 0)
    by (subst A B; rewrite !last_app_nonempty by exact Hcommon; reflexivity).
  rewrite HlastB in Heq.
  assert (HA : A <> []) by (intros HA; rewrite HA in Hdeep; simpl in Hdeep; lia).
  pose proof (nth_error_last A 0 HA) as HnA.
  (* the last address of the cut capture is entry 34 of the chain *)
  assert (Hcut : firstn 32 (skipn 3 A) <> [])
    by (intros Hnil; rewrite Hnil in Hcl; discriminate).
  pose proof (nth_error_last (firstn 32 (skipn 3 A)) 0 Hcut) as HnC.
  rewrite Hcl in HnC. change (32 - 1)%nat with 31%nat in HnC.
  rewrite nth_error_firstn in HnC.
  change (31 <? 32)%nat with true in HnC. cbv iota in HnC.
  rewrite nth_error_skipn in HnC. change (3 + 31)%nat with 34%nat in HnC.
  rewrite <- Heq, <- HnA in HnC.
  assert (H34 : (34 < List.length A)%nat) by lia.
  pose proof (proj1 (NoDup_nth_error A) Hnodup 34%nat (List.length A - 1)%nat H34 HnC).
  lia.
Qed.


Lemma cut_capture_is_rejected_witness :
  exists ours cause : stack,
    callers ([1; 2; 3; 4] ++ [139; 140])%list 0 = Ret ours
    /\ callers (map Z.of_nat (seq 100 39) ++ [139; 140])%list 0 = Ret cause
    /\ List.length cause = 32%nat
    /\ (st <- stack_StackTrace cause ;; ancestorOfCause ours st) = Ret false.
Proof.
  apply (cut_capture_is_rejected (map Z.of_nat (seq 100 39)) [1; 2; 3; 4] [139; 140]).
  - change (map Z.of_nat (seq 100 39) ++ [139; 140])%list
      with (map Z.of_nat (seq 100 41)).
    apply NoDup_map_of_nat. apply seq_NoDup.
  - discriminate.
  - vm_compute. lia.
  - vm_compute. lia.
Defined.
